(** * go.hue: a shallow embedding of the bridge client and its light and
    group resources.

    The package talks to a Philips Hue bridge over HTTP.  Everything outside
    the package (the shared http client, the URL parser behind
    [http.NewRequest], the decoders of [encoding/json], the platform's [int]
    width and the language version's loop-variable rule) is gathered in one
    record, [Env]; everything the package can change (objects reachable through
    pointers, the log, the calls made to the http client) is gathered in
    [World].  Go functions become computations [M A] over the world that
    either return or panic. *)

From Stdlib Require Import ZArith Lia.
From stdpp Require Import base option list gmap strings sorting.

Set Warnings "-register-all".
Local Open Scope Z_scope.

Definition LF : string := String (Ascii.ascii_of_nat 10) EmptyString.

(** ** Data that crosses the wire *)

(** A float32 or float64 is carried as its IEEE-754 bit pattern: the package
    never computes on one, it only hands it to the encoder. *)
Definition float32 := Z.
Definition float64 := Z.

(** The JSON documents the package writes and the [interface{}] values it
    decodes.  The members of an object are kept in the order in which they
    are written (struct fields: declaration order; map keys: sorted) or, for
    a decoded Go map, iterated. *)
Inductive json :=
| JNull
| JBool (b : bool)
| JInt (n : Z)
| JFloat32 (bits : float32)
| JFloat64 (bits : float64)
| JString (s : string)
| JArray (l : list json)
| JObject (members : list (string * json)).

(** [m[key]] on a Go map given by its entries. *)
Fixpoint index {V : Type} (m : list (string * V)) (key : string) : option V :=
  match m with
  | [] => None
  | (k, v) :: rest => if String.eqb k key then Some v else index rest key
  end.

(** The member of a JSON document under a key; a document that is not an
    object has no members. *)
Definition member (doc : json) (key : string) : option json :=
  match doc with
  | JObject members => index members key
  | _ => None
  end.

(** strconv: [ErrSyntax] and [ErrRange]. *)
Inductive numerr :=
| ErrSyntax
| ErrRange.

(** Go [error] values, by origin, each with its [Error()] text. *)
Inductive error :=
| TransportError (msg : string)
| RequestError (msg : string)
| ReadError (msg : string)
| DecodeError (msg : string)
| UnsupportedValueError (msg : string)
| NumError (func num : string) (err : numerr)
| ErrorString (msg : string).

Definition Error (e : error) : string :=
  match e with
  | TransportError msg | RequestError msg | ReadError msg
  | DecodeError msg | UnsupportedValueError msg | ErrorString msg => msg
  | NumError func num err =>
      "strconv." +:+ func +:+ ": parsing " +:+ num +:+
      match err with
      | ErrRange => ": value out of range"
      | ErrSyntax => ": invalid syntax"
      end
  end.

(** [errors.New]. *)
Definition errors_New (text : string) : error := ErrorString text.

(** A Go result pair [(x, err)] in which [x] is meaningful only when [err]
    is nil. *)
Inductive result (A : Type) :=
| Ok (a : A)
| Err (e : error).
Arguments Ok {A} a.
Arguments Err {A} e.

(** Modelled from the spec: the [Result] envelope, whose declaration is not
    among the sources.  Each element is either a success record (changed
    attribute path to new value) or an error record (error type code,
    attribute path, human-readable description). *)
Inductive Result :=
| Success (changed : list (string * json))
| Failure (type : Z) (address description : string).

(** ** Objects and pointers *)

(** A pointer is [nil] or the address of a cell of the pointed-to type. *)
Definition ptr := option nat.

(** bridge.go: [type Bridge struct]. *)
Record Bridge := mkBridge {
  IPAddr : string;
  Username : string;
  debug : bool
}.

(** light.go: [type Light struct].  The back-reference is spelled [bridge]
    in light.go and [Bridge] where the listing code fills it in. *)
Module Light.
Record t := mk {
  ID : string;
  Name : string;
  Bridge : ptr
}.
End Light.

(** group_list.go: [type Group struct]. *)
Module Group.
Record t := mk {
  ID : string;
  Name : string;
  Type_ : string;
  Class : string;
  Lights : list string;
  Bridge : ptr
}.
End Group.

(** What the package hands to the shared http client. *)
Record Request := mkRequest {
  Method : string;
  URL : string;
  ContentType : option string;
  Body : option json
}.

(** A response is its body stream: the bytes it yields, or the error that
    reading it runs into. *)
Record Response := mkResponse {
  RespBody : result string
}.

Inductive event :=
| Logged (line : string)
| Sent (r : Request).

Record World := mkWorld {
  heap_Bridge : list Bridge;
  heap_Light : list Light.t;
  heap_Group : list Group.t;
  trace : list event
}.

(** How a [for ... range] declares its variables: once for the whole loop
    (every Go before 1.22, and any later toolchain building a package whose
    module declares no newer language version, as one without a go.mod
    does), or once per iteration. *)
Inductive loopvar :=
| PerLoop
| PerIteration.

(** Everything the package relies on and does not define. *)
Record Env := mkEnv {
  (** the package-level [client]: [client.Get], [client.Post], [client.Do] *)
  client : Request -> result Response;
  (** the verdict of [url.Parse] inside [http.NewRequest] *)
  url_error : string -> option error;
  (** [json.Unmarshal] into a [map[string]interface{}]: the entries in the
      order in which a later [range] visits them *)
  Unmarshal_map : string -> result (list (string * json));
  (** [Decode] into a [map[string]Light] and a [map[string]Group] *)
  Decode_lights : string -> result (list (string * Light.t));
  Decode_groups : string -> result (list (string * Group.t));
  (** [Decode] into a [[]Result]: what was filled in, and the error *)
  Decode_results : string -> list Result * option error;
  (** [strconv.IntSize] *)
  IntSize : Z;
  range_var : loopvar
}.

(** ** Computations *)

Inductive outcome (A : Type) :=
| Normal (a : A)
| Panic (msg : string).
Arguments Normal {A} a.
Arguments Panic {A} msg.

Definition M (A : Type) : Type := World -> outcome A * World.

#[global] Instance M_ret : MRet M := fun A a w => (Normal a, w).

#[global] Instance M_bind : MBind M := fun A B f c w =>
  match c w with
  | (Normal a, w') => f a w'
  | (Panic msg, w') => (Panic msg, w')
  end.

Definition panic {A : Type} (msg : string) : M A := fun w => (Panic msg, w).

Definition nil_dereference : string :=
  "runtime error: invalid memory address or nil pointer dereference".

(** Reading through a pointer. *)
Definition load {A : Type} (cells : World -> list A) (p : ptr) : M A :=
  fun w =>
    match p with
    | None => (Panic nil_dereference, w)
    | Some a =>
        match cells w !! a with
        | Some x => (Normal x, w)
        | None => (Panic nil_dereference, w)
        end
    end.

Definition emit (e : event) : M unit :=
  fun w => (Normal tt,
            mkWorld (heap_Bridge w) (heap_Light w) (heap_Group w) (trace w ++ [e])).

(** [&Light{...}], or a variable of type [Light] whose address escapes. *)
Definition new_Light (l : Light.t) : M ptr :=
  fun w => (Normal (Some (length (heap_Light w))),
            mkWorld (heap_Bridge w) (heap_Light w ++ [l]) (heap_Group w) (trace w)).

Definition new_Group (g : Group.t) : M ptr :=
  fun w => (Normal (Some (length (heap_Group w))),
            mkWorld (heap_Bridge w) (heap_Light w) (heap_Group w ++ [g]) (trace w)).

(** Assignment to a variable of type [Group] that lives at [p]. *)
Definition store_Group (p : ptr) (g : Group.t) : M unit :=
  fun w =>
    match p with
    | None => (Panic nil_dereference, w)
    | Some a =>
        match heap_Group w !! a with
        | Some _ =>
            (Normal tt,
             mkWorld (heap_Bridge w) (heap_Light w) (<[a := g]> (heap_Group w)) (trace w))
        | None => (Panic nil_dereference, w)
        end
    end.

Definition store_Bridge (p : ptr) (b : Bridge) : M unit :=
  fun w =>
    match p with
    | None => (Panic nil_dereference, w)
    | Some a =>
        match heap_Bridge w !! a with
        | Some _ =>
            (Normal tt,
             mkWorld (<[a := b]> (heap_Bridge w)) (heap_Light w) (heap_Group w) (trace w))
        | None => (Panic nil_dereference, w)
        end
    end.

Definition new_Bridge (b : Bridge) : M ptr :=
  fun w => (Normal (Some (length (heap_Bridge w))),
            mkWorld (heap_Bridge w ++ [b]) (heap_Light w) (heap_Group w) (trace w)).

(** [log.Printf] with the formatted line. *)
Definition log_Printf (line : string) : M unit := emit (Logged line).

(** A call into the shared http client. *)
Definition client_call (E : Env) (r : Request) : M (result Response) :=
  _ ← emit (Sent r); mret (client E r).

(** The requests handed to the http client, in order. *)
Definition requests (t : list event) : list Request :=
  omap (fun e => match e with Sent r => Some r | Logged _ => None end) t.

(** ** bridge.go *)

Definition NewBridge (ipAddr username : string) : M ptr :=
  new_Bridge (mkBridge ipAddr username false).

Definition Debug (b : ptr) : M ptr :=
  b' ← load heap_Bridge b;
  _ ← store_Bridge b (mkBridge (IPAddr b') (Username b') true);
  mret b.

Definition toURI (b : Bridge) (path : string) : string :=
  "http://" +:+ IPAddr b +:+ "/api/" +:+ Username b +:+ path.

Definition get (E : Env) (b : ptr) (path : string) : M (result Response) :=
  b' ← load heap_Bridge b;
  let uri := toURI b' path in
  _ ← (if debug b' then log_Printf ("GET " +:+ uri +:+ LF) else mret tt);
  client_call E (mkRequest "GET" uri None None).

Definition post (E : Env) (b : ptr) (path : string) (body : option json)
  : M (result Response) :=
  b' ← load heap_Bridge b;
  let uri := toURI b' path in
  _ ← (if debug b' then log_Printf ("POST " +:+ uri +:+ LF) else mret tt);
  client_call E (mkRequest "POST" uri (Some "application/json") body).

(** [http.NewRequest]: the method is a constant of this package and always
    valid, so only the URL can be refused. *)
Definition http_NewRequest (E : Env) (method uri : string)
    (body : option json) : result Request :=
  match url_error E uri with
  | Some e => Err e
  | None => Ok (mkRequest method uri None body)
  end.

Definition put (E : Env) (b : ptr) (path : string) (body : option json)
  : M (result Response) :=
  b' ← load heap_Bridge b;
  let uri := toURI b' path in
  _ ← (if debug b' then log_Printf ("PUT " +:+ uri +:+ LF) else mret tt);
  match http_NewRequest E "PUT" uri body with
  | Err err => mret (Err err)
  | Ok request => client_call E request
  end.

(** A [for k, v := range m] that threads the variables the body updates,
    over the entries of [m] in the order in which the runtime visits them. *)
Fixpoint range {V S : Type} (entries : list (string * V))
    (body : S -> string -> V -> M S) (s : S) : M S :=
  match entries with
  | [] => mret s
  | (k, v) :: rest => s' ← body s k v; range rest body s'
  end.

(** [json.NewDecoder(response.Body).Decode(&x)]: a failed read of the body
    surfaces as the decoder's error. *)
Definition Decode {A : Type} (dec : string -> result A) (response : Response)
  : result A :=
  match RespBody response with
  | Ok data => dec data
  | Err err => Err err
  end.

(** The dynamic type named by a failed type assertion. *)
Definition type_name (v : option json) : string :=
  match v with
  | None | Some JNull => "nil"
  | Some (JBool _) => "bool"
  | Some (JInt _) => "int"
  | Some (JFloat32 _) => "float32"
  | Some (JFloat64 _) => "float64"
  | Some (JString _) => "string"
  | Some (JArray _) => "[]interface {}"
  | Some (JObject _) => "map[string]interface {}"
  end.

Definition conversion_panic {A : Type} (v : option json) (want : string)
  : M A :=
  panic ("interface conversion: interface {} is " +:+ type_name v +:+
         ", not " +:+ want).

(** [v.(string)] *)
Definition assert_string (v : option json) : M string :=
  match v with
  | Some (JString s) => mret s
  | _ => conversion_panic v "string"
  end.

(** [v.(map[string]interface{})] *)
Definition assert_map (v : option json) : M (list (string * json)) :=
  match v with
  | Some (JObject m) => mret m
  | _ => conversion_panic v "map[string]interface {}"
  end.

(** What [GetNewLights] does with the decoded mapping: the reserved entry
    is taken out first, then every other entry becomes a light. *)
Definition GetNewLights_decoded (results : list (string * json))
  : M (result (list ptr * string)) :=
  lastScan ← assert_string (index results "lastscan");
  lights ← range results
    (fun lights id params =>
       if negb (String.eqb id "lastscan") then
         m ← assert_map (Some params);
         name ← assert_string (index m "name");
         light ← new_Light (Light.mk id name None);
         mret (lights ++ [light])
       else mret lights)
    [];
  mret (Ok (lights, lastScan)).

Definition GetNewLights (E : Env) (b : ptr)
  : M (result (list ptr * string)) :=
  response ← get E b "/lights/new";
  match response with
  | Err err => mret (Err err)
  | Ok response =>
      match RespBody response with
      | Err err => mret (Err err)
      | Ok data =>
          match Unmarshal_map E data with
          | Err err => mret (Err err)
          | Ok results => GetNewLights_decoded results
          end
      end
  end.

Definition GetAllLights (E : Env) (b : ptr) : M (result (list ptr)) :=
  response ← get E b "/lights";
  match response with
  | Err err => mret (Err err)
  | Ok response =>
      match Decode (Decode_lights E) response with
      | Err err => mret (Err err)
      | Ok results =>
          lights ← range results
            (fun lights id params =>
               light ← new_Light (Light.mk id (Light.Name params) b);
               mret (lights ++ [light]))
            [];
          mret (Ok lights)
      end
  end.

(** The first light of [lights] that [matches], as the two lookup loops
    return it. *)
Fixpoint first_light (matches : Light.t -> bool) (ls : list ptr)
  : M (option ptr) :=
  match ls with
  | [] => mret None
  | light :: rest =>
      l ← load heap_Light light;
      if matches l then mret (Some light) else first_light matches rest
  end.

Definition FindLightByID (E : Env) (b : ptr) (id : string)
  : M (result ptr) :=
  lights ← GetAllLights E b;
  match lights with
  | Err err => mret (Err err)
  | Ok lights =>
      found ← first_light (fun l => String.eqb (Light.ID l) id) lights;
      match found with
      | Some light => mret (Ok light)
      | None => mret (Err (errors_New ("unable to find light with id, " +:+ id)))
      end
  end.

Definition FindLightByName (E : Env) (b : ptr) (name : string)
  : M (result ptr) :=
  lights ← GetAllLights E b;
  match lights with
  | Err err => mret (Err err)
  | Ok lights =>
      found ← first_light (fun l => String.eqb (Light.Name l) name) lights;
      match found with
      | Some light => mret (Ok light)
      | None =>
          mret (Err (errors_New ("unable to find light with name, " +:+ name)))
      end
  end.

(** What a mutating call hands back: the decoded envelopes and the error. *)
Definition results_of (E : Env) (response : Response)
  : list Result * option error :=
  match RespBody response with
  | Ok data => Decode_results E data
  | Err err => ([], Some err)
  end.

Definition Search (E : Env) (b : ptr) : M (list Result * option error) :=
  response ← post E b "/lights" None;
  match response with
  | Err err => mret ([], Some err)
  | Ok response => mret (results_of E response)
  end.

(** ** group_list.go *)

Definition zero_Group : Group.t := Group.mk "" "" "" "" [] None.

Definition set_Group_ID (g : Group.t) (id : string) : Group.t :=
  Group.mk id (Group.Name g) (Group.Type_ g) (Group.Class g)
           (Group.Lights g) (Group.Bridge g).

Definition set_Group_Bridge (g : Group.t) (b : ptr) : Group.t :=
  Group.mk (Group.ID g) (Group.Name g) (Group.Type_ g) (Group.Class g)
           (Group.Lights g) b.

(** The body of the loop of [GetAllGroups], with [group] the address of the
    loop variable, which the body takes and appends. *)
Definition GetAllGroups_body (b : ptr) (group : ptr) (groups : list ptr)
    (id : string) : M (list ptr) :=
  g ← load heap_Group group;
  _ ← store_Group group (set_Group_ID g id);
  g ← load heap_Group group;
  _ ← store_Group group (set_Group_Bridge g b);
  mret (groups ++ [group]).

(** [groups = append(groups, &group)] takes the address of the range
    variable [group], so the variable lives in a cell of its own: one cell
    for the whole loop, overwritten by every turn, or a new cell in every
    turn, as the language version has it. *)
Definition GetAllGroups (E : Env) (b : ptr) : M (result (list ptr)) :=
  response ← get E b "/groups";
  match response with
  | Err err => mret (Err err)
  | Ok response =>
      match Decode (Decode_groups E) response with
      | Err err => mret (Err err)
      | Ok results =>
          groups ←
            match range_var E with
            | PerLoop =>
                group ← new_Group zero_Group;
                range results
                  (fun groups id value =>
                     _ ← store_Group group value;
                     GetAllGroups_body b group groups id)
                  []
            | PerIteration =>
                range results
                  (fun groups id value =>
                     group ← new_Group value;
                     GetAllGroups_body b group groups id)
                  []
            end;
          mret (Ok groups)
      end
  end.

(** ** encoding/json, as far as the package drives it *)

(** A float is finite unless its exponent bits are all ones. *)
Definition exponent32 (bits : float32) : Z := Z.land (Z.shiftr bits 23) 255.
Definition exponent64 (bits : float64) : Z := Z.land (Z.shiftr bits 52) 2047.

(** How the encoder names a float it refuses. *)
Definition unsupported_float (mantissa_bits sign_bit : Z) (bits : Z)
  : error :=
  UnsupportedValueError
    ("json: unsupported value: " +:+
     if Z.land bits (2 ^ mantissa_bits - 1) =? 0
     then (if Z.testbit bits sign_bit then "-Inf" else "+Inf")
     else "NaN").

(** The first value of a document that the encoder refuses: a NaN or an
    infinity. *)
Fixpoint unsupported (doc : json) : option error :=
  match doc with
  | JFloat32 bits =>
      if exponent32 bits =? 255 then Some (unsupported_float 23 31 bits)
      else None
  | JFloat64 bits =>
      if exponent64 bits =? 2047 then Some (unsupported_float 52 63 bits)
      else None
  | JArray l =>
      (fix each (l : list json) : option error :=
         match l with
         | [] => None
         | x :: rest =>
             match unsupported x with
             | Some e => Some e
             | None => each rest
             end
         end) l
  | JObject members =>
      (fix each (l : list (string * json)) : option error :=
         match l with
         | [] => None
         | (_, x) :: rest =>
             match unsupported x with
             | Some e => Some e
             | None => each rest
             end
         end) members
  | _ => None
  end.

(** [json.Marshal], from the document the value encodes to. *)
Definition json_Marshal (doc : json) : result json :=
  match unsupported doc with
  | Some err => Err err
  | None => Ok doc
  end.

(** A struct field tagged [json:"key,omitempty"]: left out when its value
    is empty (false, 0, a nil pointer or interface, an array, slice, map or
    string of length zero). *)
Definition omitempty (key : string) (empty : bool) (v : json)
  : list (string * json) :=
  if empty then [] else [(key, v)].

Definition empty_string (s : string) : bool := String.eqb s "".

Definition empty_slice {A : Type} (s : option (list A)) : bool :=
  match s with
  | None | Some [] => true
  | Some (_ :: _) => false
  end.

Definition elements {A : Type} (s : option (list A)) : list A :=
  default [] s.

(** The keys of a Go map are written in sorted order. *)
Definition key_le (a b : string * json) : Prop := String.leb a.1 b.1 = true.

#[global] Instance key_le_dec (a b : string * json) : Decision (key_le a b).
Proof. unfold key_le. apply _. Defined.

Definition encode_map (m : gmap string json) : json :=
  JObject (merge_sort key_le (map_to_list m)).

(** ** strconv *)

Definition byte_of (c : Ascii.ascii) : Z := Z.of_N (Ascii.N_of_ascii c).

(** The loop of [ParseUint] in base 10 without underscores: [n] wraps at 64
    bits, [cutoff] is the smallest number whose tenfold overflows. *)
Definition cutoff : Z := (2 ^ 64 - 1) / 10 + 1.

Fixpoint ParseUint_loop (maxVal : Z) (s : string) (n : Z)
  : Z * option numerr :=
  match s with
  | EmptyString => (n, None)
  | String c rest =>
      let c := byte_of c in
      if (48 <=? c) && (c <=? 57) then
        let d := c - 48 in
        if cutoff <=? n then (maxVal, Some ErrRange)
        else
          let n := (n * 10) mod 2 ^ 64 in
          let n1 := (n + d) mod 2 ^ 64 in
          if (n1 <? n) || (maxVal <? n1) then (maxVal, Some ErrRange)
          else ParseUint_loop maxVal rest n1
      else (0, Some ErrSyntax)
  end.

Definition ParseUint (s : string) (bitSize : Z) : Z * option numerr :=
  match s with
  | EmptyString => (0, Some ErrSyntax)
  | _ => ParseUint_loop (2 ^ bitSize - 1) s 0
  end.

Definition ParseInt (s : string) (bitSize : Z) : Z * option numerr :=
  match s with
  | EmptyString => (0, Some ErrSyntax)
  | String c rest =>
      let neg := byte_of c =? 45 in
      let s := if (byte_of c =? 43) || neg then rest else s in
      match ParseUint s bitSize with
      | (_, Some ErrSyntax) => (0, Some ErrSyntax)
      | (un, _) =>
          let cutoff := 2 ^ (bitSize - 1) in
          if negb neg && (cutoff <=? un) then (cutoff - 1, Some ErrRange)
          else if neg && (cutoff <? un) then (- cutoff, Some ErrRange)
          else (if neg then - un else un, None)
      end
  end.

Definition Atoi (E : Env) (s : string) : Z * option error :=
  let (i, err) := ParseInt s (IntSize E) in
  (i, NumError "Atoi" s <$> err).

Definition ParseBool (str : string) : bool * option error :=
  if bool_decide (str ∈ ["1"; "t"; "T"; "true"; "TRUE"; "True"])
  then (true, None)
  else if bool_decide (str ∈ ["0"; "f"; "F"; "false"; "FALSE"; "False"])
  then (false, None)
  else (false, Some (NumError "ParseBool" str ErrSyntax)).

(** ** The typed light state (the light file in src/unnamed/part_000) *)

Module Typed.

(** [type SetLightState struct]: every field tagged [omitempty].  The
    integer fields are [uint8] and [uint16] values; a nil [Xy] is [None]. *)
Module SetLightState.
Record t := mk {
  On : bool;
  Bri : Z;
  Hue : Z;
  Sat : Z;
  Xy : option (list float64);
  Ct : Z;
  Alert : string;
  Effect : string;
  TransitionTime : Z;
  Scene : string
}.
End SetLightState.

(** The zero value, which a composite literal starts from. *)
Definition zero : SetLightState.t :=
  SetLightState.mk false 0 0 0 None 0 "" "" 0 "".

(** What [encoding/json] writes for the struct, field by field. *)
Definition encode (state : SetLightState.t) : json :=
  JObject
    (omitempty "on" (negb (SetLightState.On state))
       (JBool (SetLightState.On state)) ++
     omitempty "bri" (SetLightState.Bri state =? 0)
       (JInt (SetLightState.Bri state)) ++
     omitempty "hue" (SetLightState.Hue state =? 0)
       (JInt (SetLightState.Hue state)) ++
     omitempty "sat" (SetLightState.Sat state =? 0)
       (JInt (SetLightState.Sat state)) ++
     omitempty "xy" (empty_slice (SetLightState.Xy state))
       (JArray (JFloat64 <$> elements (SetLightState.Xy state))) ++
     omitempty "ct" (SetLightState.Ct state =? 0)
       (JInt (SetLightState.Ct state)) ++
     omitempty "alert" (empty_string (SetLightState.Alert state))
       (JString (SetLightState.Alert state)) ++
     omitempty "effect" (empty_string (SetLightState.Effect state))
       (JString (SetLightState.Effect state)) ++
     omitempty "transitiontime" (SetLightState.TransitionTime state =? 0)
       (JInt (SetLightState.TransitionTime state)) ++
     omitempty "scene" (empty_string (SetLightState.Scene state))
       (JString (SetLightState.Scene state))).

Definition SetState (E : Env) (l : ptr) (state : SetLightState.t)
  : M (list Result * option error) :=
  match json_Marshal (encode state) with
  | Err err => mret ([], Some err)
  | Ok data =>
      l' ← load heap_Light l;
      response ← put E (Light.Bridge l')
                   ("/lights/" +:+ Light.ID l' +:+ "/state") (Some data);
      match response with
      | Err err => mret ([], Some err)
      | Ok response => mret (results_of E response)
      end
  end.

Definition On (E : Env) (l : ptr) : M (list Result * option error) :=
  let state := SetLightState.mk true 0 0 0 None 0 "" "none" 0 "" in
  SetState E l state.

Definition Off (E : Env) (l : ptr) : M (list Result * option error) :=
  let state := SetLightState.mk false 0 0 0 None 0 "" "" 0 "" in
  SetState E l state.

Definition ColorLoop (E : Env) (l : ptr) : M (list Result * option error) :=
  let state := SetLightState.mk true 0 0 0 None 0 "" "colorloop" 0 "" in
  SetState E l state.

End Typed.

(** ** The group state (src/unnamed/part_001) *)

Module GroupState.
Record t := mk {
  On : bool;
  Bri : Z;
  Hue : Z;
  Sat : Z;
  Xy : option (list float64);
  Ct : Z;
  Alert : string;
  Effect : string;
  TransitionTime : Z;
  Scene : string
}.

Definition zero : t := mk false 0 0 0 None 0 "" "" 0 "".

Definition encode (state : t) : json :=
  JObject
    (omitempty "on" (negb (On state)) (JBool (On state)) ++
     omitempty "bri" (Bri state =? 0) (JInt (Bri state)) ++
     omitempty "hue" (Hue state =? 0) (JInt (Hue state)) ++
     omitempty "sat" (Sat state =? 0) (JInt (Sat state)) ++
     omitempty "xy" (empty_slice (Xy state))
       (JArray (JFloat64 <$> elements (Xy state))) ++
     omitempty "ct" (Ct state =? 0) (JInt (Ct state)) ++
     omitempty "alert" (empty_string (Alert state)) (JString (Alert state)) ++
     omitempty "effect" (empty_string (Effect state))
       (JString (Effect state)) ++
     omitempty "transitiontime" (TransitionTime state =? 0)
       (JInt (TransitionTime state)) ++
     omitempty "scene" (empty_string (Scene state)) (JString (Scene state))).
End GroupState.

Definition SetGroupState (E : Env) (b : ptr) (groupID : string)
    (state : GroupState.t) : M (list Result * option error) :=
  match json_Marshal (GroupState.encode state) with
  | Err err => mret ([], Some err)
  | Ok data =>
      response ← put E b ("/groups/" +:+ groupID +:+ "/action") (Some data);
      match response with
      | Err err => mret ([], Some err)
      | Ok response => mret (results_of E response)
      end
  end.

(** ** The string-encoded light state (src/light.go) *)

Module Sentinel.

(** [type SetLightState struct]: the empty string, and a nil [Xy], stand for
    a field that is not set. *)
Module SetLightState.
Record t := mk {
  On : string;
  Bri : string;
  Hue : string;
  Sat : string;
  Xy : option (list float32);
  Ct : string;
  Alert : string;
  Effect : string;
  TransitionTime : string
}.
End SetLightState.

Definition zero : SetLightState.t :=
  SetLightState.mk "" "" "" "" None "" "" "" "".

(** [if field != "" { params[key] = v }] *)
Definition set_if (present : bool) (key : string) (v : json)
    (params : gmap string json) : gmap string json :=
  if present then <[key := v]> params else params.

Definition nonempty (s : string) : bool := negb (String.eqb s "").

(** The [params] map as [SetState] has filled it when it reaches
    [json.Marshal]. *)
Definition params (E : Env) (state : SetLightState.t) : gmap string json :=
  let params : gmap string json := ∅ in
  let params :=
    set_if (nonempty (SetLightState.On state)) "on"
      (JBool (ParseBool (SetLightState.On state)).1) params in
  let params :=
    set_if (nonempty (SetLightState.Bri state)) "bri"
      (JInt (Atoi E (SetLightState.Bri state)).1) params in
  let params :=
    set_if (nonempty (SetLightState.Hue state)) "hue"
      (JInt (Atoi E (SetLightState.Hue state)).1) params in
  let params :=
    set_if (nonempty (SetLightState.Sat state)) "sat"
      (JInt (Atoi E (SetLightState.Sat state)).1) params in
  let params :=
    set_if (bool_decide (is_Some (SetLightState.Xy state))) "xy"
      (JArray (JFloat32 <$> elements (SetLightState.Xy state))) params in
  let params :=
    set_if (nonempty (SetLightState.Ct state)) "ct"
      (JInt (Atoi E (SetLightState.Ct state)).1) params in
  let params :=
    set_if (nonempty (SetLightState.Alert state)) "alert"
      (JString (SetLightState.Alert state)) params in
  let params :=
    set_if (nonempty (SetLightState.Effect state)) "effect"
      (JString (SetLightState.Effect state)) params in
  let params :=
    set_if (nonempty (SetLightState.TransitionTime state)) "transitiontime"
      (JInt (Atoi E (SetLightState.TransitionTime state)).1) params in
  params.

Definition SetState (E : Env) (l : ptr) (state : SetLightState.t)
  : M (list Result * option error) :=
  match json_Marshal (encode_map (params E state)) with
  | Err err => mret ([], Some err)
  | Ok data =>
      l' ← load heap_Light l;
      response ← put E (Light.Bridge l')
                   ("/lights/" +:+ Light.ID l' +:+ "/state") (Some data);
      match response with
      | Err err => mret ([], Some err)
      | Ok response => mret (results_of E response)
      end
  end.

Definition On (E : Env) (l : ptr) : M (list Result * option error) :=
  let state := SetLightState.mk "true" "" "" "" None "" "" "none" "" in
  SetState E l state.

Definition Off (E : Env) (l : ptr) : M (list Result * option error) :=
  let state := SetLightState.mk "false" "" "" "" None "" "" "" "" in
  SetState E l state.

Definition ColorLoop (E : Env) (l : ptr) : M (list Result * option error) :=
  let state := SetLightState.mk "true" "" "" "" None "" "" "colorloop" "" in
  SetState E l state.

End Sentinel.

(** ** A bridge on the local network, for running the code *)

Definition quote : string := String (Ascii.ascii_of_nat 34) EmptyString.

(** [{"1":{"name":"Lamp"},"lastscan":"2014-01-01T00:00:00"}] *)
Definition new_lights_payload : string :=
  "{" +:+ quote +:+ "1" +:+ quote +:+ ":{" +:+ quote +:+ "name" +:+ quote +:+
  ":" +:+ quote +:+ "Lamp" +:+ quote +:+ "}," +:+ quote +:+ "lastscan" +:+
  quote +:+ ":" +:+ quote +:+ "2014-01-01T00:00:00" +:+ quote +:+ "}".

Definition new_lights_entries : list (string * json) :=
  [("1", JObject [("name", JString "Lamp")]);
   ("lastscan", JString "2014-01-01T00:00:00")].

Definition sample_bridge : Bridge := mkBridge "10.0.0.2" "newdeveloper" false.

(** One bridge and one light that was listed from it. *)
Definition sample_world : World :=
  mkWorld [sample_bridge] [Light.mk "1" "Lamp" (Some 0%nat)] [] [].

(** A bridge that answers [/lights/new] with the payload above, [/lights]
    and [/groups] with the given mappings, and anything else with an empty
    array of results. *)
Definition sample_env (rv : loopvar)
    (all_lights : list (string * Light.t))
    (all_groups : list (string * Group.t)) : Env :=
  mkEnv
    (fun r =>
       if String.eqb (URL r) "http://10.0.0.2/api/newdeveloper/lights/new"
       then Ok (mkResponse (Ok new_lights_payload))
       else Ok (mkResponse (Ok "[]")))
    (fun _ => None)
    (fun data =>
       if String.eqb data new_lights_payload then Ok new_lights_entries
       else Err (DecodeError "unexpected end of JSON input"))
    (fun _ => Ok all_lights)
    (fun _ => Ok all_groups)
    (fun _ => ([], None))
    64
    rv.

(** What a run shows to the network: its result and the requests it has
    handed to the http client. *)
Definition observable {A : Type} (r : outcome A * World)
  : outcome A * list Request :=
  (r.1, requests (trace r.2)).

(** The request that sets the state of light [l] on bridge [b] to [doc],
    and the one that sets the state of a group. *)
Definition state_request (b : Bridge) (l : Light.t) (doc : json) : Request :=
  mkRequest "PUT" (toURI b ("/lights/" +:+ Light.ID l +:+ "/state")) None
            (Some doc).

Definition action_request (b : Bridge) (groupID : string) (doc : json)
  : Request :=
  mkRequest "PUT" (toURI b ("/groups/" +:+ groupID +:+ "/action")) None
            (Some doc).

(** What a mutating call returns once its request has been built. *)
Definition exchange (E : Env) (r : Request) : list Result * option error :=
  match url_error E (URL r) with
  | Some err => ([], Some err)
  | None =>
      match client E r with
      | Err err => ([], Some err)
      | Ok response => results_of E response
      end
  end.

(** The world after such a call: the log line of a bridge in debug mode and
    the request, unless [http.NewRequest] refused it. *)
Definition after_put (E : Env) (b : Bridge) (r : Request) (w : World)
  : World :=
  mkWorld (heap_Bridge w) (heap_Light w) (heap_Group w)
    (trace w ++
     (if debug b then [Logged ("PUT " +:+ URL r +:+ LF)] else []) ++
     match url_error E (URL r) with
     | Some _ => []
     | None => [Sent r]
     end).

(** A bridge that has found nothing and never scanned: it answers every
    request with an empty object. *)
Definition scanless_env : Env :=
  mkEnv
    (fun _ => Ok (mkResponse (Ok "{}")))
    (fun _ => None)
    (fun _ => Ok [])
    (fun _ => Ok [])
    (fun _ => Ok [])
    (fun _ => ([], Some (DecodeError
       "json: cannot unmarshal object into Go value of type []hue.Result")))
    64
    PerLoop.

(** The groups of a home, and the group that stands for all lights. *)
Definition group_0 : Group.t :=
  Group.mk "" "Lightset 0" "LightGroup" "" ["1"; "2"; "3"] None.

Definition living_room : Group.t :=
  Group.mk "" "Living room" "Room" "Living room" ["1"; "2"] None.

Definition kitchen : Group.t :=
  Group.mk "" "Kitchen" "Room" "Kitchen" ["3"] None.

(** ** Vocabulary of the properties *)

(** The object behind a pointer to a light or to a group. *)
Definition pointee (w : World) (p : ptr) : option Light.t :=
  a ← p; heap_Light w !! a.

Definition group_pointee (w : World) (p : ptr) : option Group.t :=
  a ← p; heap_Group w !! a.

(** The light and the group that the listing code makes of an entry of the
    decoded mapping, on bridge [b]. *)
Definition listed_light (b : ptr) (entry : string * Light.t) : Light.t :=
  Light.mk entry.1 (Light.Name entry.2) b.

Definition listed_group (b : ptr) (entry : string * Group.t) : Group.t :=
  set_Group_Bridge (set_Group_ID entry.2 entry.1) b.

(** The addresses of [n] cells allocated one after the other from [first]. *)
Definition fresh (first n : nat) : list ptr := Some <$> seq first n.

(** Whether a string starts with a minus sign, which is how [ParseInt]
    tells a negative numeral. *)
Definition negative (s : string) : bool :=
  match s with
  | EmptyString => false
  | String c _ => byte_of c =? 45
  end.

(** The two bounds of [int]. *)
Definition MaxInt (E : Env) : Z := 2 ^ (IntSize E - 1) - 1.
Definition MinInt (E : Env) : Z := - 2 ^ (IntSize E - 1).

(** What is sent for a numeric field whose string [strconv.Atoi] refuses,
    by the kind of the error: 0 with a syntax error; with a range error the
    largest [int] when the string has no leading minus sign, the smallest
    when it has one. *)
Definition discarded_failure (E : Env) (s : string) (sent : option json)
  : Prop :=
  ∀ err, (Atoi E s).2 = Some err →
    (err = NumError "Atoi" s ErrSyntax ∧ sent = Some (JInt 0)) ∨
    (err = NumError "Atoi" s ErrRange ∧
     sent = Some (JInt (if negative s then MinInt E else MaxInt E))).

(** The world with other cells for groups. *)
Definition with_Groups (w : World) (gs : list Group.t) : World :=
  mkWorld (heap_Bridge w) (heap_Light w) gs (trace w).

(** [key] occurs in [s]. *)
Definition contains (s key : string) : Prop :=
  ∃ pre post, s = pre +:+ key +:+ post.

(** Unfolds the plumbing of [M]. *)
Ltac run :=
  cbv beta iota delta
    [mbind M_bind mret M_ret panic load emit log_Printf client_call
     http_NewRequest].

(** Reads back the cell an update has just written. *)
Ltac insert_eq :=
  apply list_lookup_insert_eq; rewrite ?length_insert; done.

(** ** Running the bridge client *)

Lemma requests_app (t1 t2 : list event) :
  requests (t1 ++ t2) = requests t1 ++ requests t2.
Proof.
  unfold requests. apply omap_app.
Qed.

(** What [get] does on a bridge that exists: one line in the log when the
    bridge is in debug mode, then one call to the client. *)
Lemma get_run E w (a : nat) b path :
  heap_Bridge w !! a = Some b →
  get E (Some a) path w =
    let r := mkRequest "GET" (toURI b path) None None in
    (Normal (client E r),
     mkWorld (heap_Bridge w) (heap_Light w) (heap_Group w)
       (trace w ++
        (if debug b then [Logged ("GET " +:+ toURI b path +:+ LF)] else []) ++
        [Sent r])).
Proof.
  intros Hb. unfold get. run. rewrite Hb.
  destruct (debug b); simpl; by rewrite <- ?app_assoc.
Qed.

Lemma post_run E w (a : nat) b path body :
  heap_Bridge w !! a = Some b →
  post E (Some a) path body w =
    let r := mkRequest "POST" (toURI b path) (Some "application/json") body in
    (Normal (client E r),
     mkWorld (heap_Bridge w) (heap_Light w) (heap_Group w)
       (trace w ++
        (if debug b then [Logged ("POST " +:+ toURI b path +:+ LF)] else []) ++
        [Sent r])).
Proof.
  intros Hb. unfold post. run. rewrite Hb.
  destruct (debug b); simpl; by rewrite <- ?app_assoc.
Qed.

Lemma put_run E w (a : nat) b path body :
  heap_Bridge w !! a = Some b →
  put E (Some a) path body w =
    let r := mkRequest "PUT" (toURI b path) None body in
    (Normal (match url_error E (toURI b path) with
             | Some err => Err err
             | None => client E r
             end),
     mkWorld (heap_Bridge w) (heap_Light w) (heap_Group w)
       (trace w ++
        (if debug b then [Logged ("PUT " +:+ toURI b path +:+ LF)] else []) ++
        match url_error E (toURI b path) with
        | Some _ => []
        | None => [Sent r]
        end)).
Proof.
  intros Hb. unfold put. run. rewrite Hb. destruct w as [bs ls gs t].
  destruct (debug b), (url_error E (toURI b path)); simpl;
    by rewrite ?app_nil_r, <- ?app_assoc.
Qed.

(** [Debug] switches the flag of the bridge on and touches nothing else. *)
Lemma Debug_run w (a : nat) b :
  heap_Bridge w !! a = Some b →
  Debug (Some a) w =
    (Normal (Some a),
     mkWorld (<[a := mkBridge (IPAddr b) (Username b) true]> (heap_Bridge w))
       (heap_Light w) (heap_Group w) (trace w)).
Proof.
  intros Hb. unfold Debug, store_Bridge. run. by rewrite !Hb.
Qed.

(** C8: enabling debug mode changes nothing but the log.  On every bridge,
    for every path and body, [get], [post] and [put] give the same result
    and hand the same requests to the http client after [Debug] as before
    it: one request with the verb and the URI
    [http://<address>/api/<credential><path>] ([put]: none when
    [http.NewRequest] refuses the URI). *)
Theorem Debug_only_logs E w (a : nat) b path body :
  heap_Bridge w !! a = Some b →
  let w' := (Debug (Some a) w).2 in
  let uri := "http://" +:+ IPAddr b +:+ "/api/" +:+ Username b +:+ path in
  (observable (get E (Some a) path w') = observable (get E (Some a) path w) ∧
   observable (get E (Some a) path w) =
     (Normal (client E (mkRequest "GET" uri None None)),
      requests (trace w) ++ [mkRequest "GET" uri None None])) ∧
  (observable (post E (Some a) path body w') =
     observable (post E (Some a) path body w) ∧
   observable (post E (Some a) path body w) =
     (Normal (client E (mkRequest "POST" uri (Some "application/json") body)),
      requests (trace w) ++
      [mkRequest "POST" uri (Some "application/json") body])) ∧
  (observable (put E (Some a) path body w') =
     observable (put E (Some a) path body w) ∧
   observable (put E (Some a) path body w) =
     match url_error E uri with
     | Some err => (Normal (Err err), requests (trace w))
     | None =>
         (Normal (client E (mkRequest "PUT" uri None body)),
          requests (trace w) ++ [mkRequest "PUT" uri None body])
     end).
Proof.
  intros Hb w' uri.
  assert (Hb' : heap_Bridge w' !! a =
                Some (mkBridge (IPAddr b) (Username b) true)).
  { unfold w'. rewrite (Debug_run _ _ _ Hb). simpl.
    apply list_lookup_insert_eq. by eapply lookup_lt_Some. }
  assert (Ht : trace w' = trace w).
  { unfold w'. by rewrite (Debug_run _ _ _ Hb). }
  rewrite (get_run _ _ _ _ _ Hb), (get_run _ _ _ _ _ Hb').
  rewrite (post_run _ _ _ _ _ _ Hb), (post_run _ _ _ _ _ _ Hb').
  rewrite (put_run _ _ _ _ _ _ Hb), (put_run _ _ _ _ _ _ Hb').
  unfold observable, toURI. simpl. fold uri. rewrite Ht.
  rewrite !requests_app.
  destruct (debug b), (url_error E uri); simpl; rewrite ?app_nil_r; done.
Qed.

Lemma Debug_only_logs_witness :
  let w' := (Debug (Some 0%nat) sample_world).2 in
  observable (put (sample_env PerLoop [] []) (Some 0%nat) "/lights/1"
                (Some (JObject [])) w') =
  observable (put (sample_env PerLoop [] []) (Some 0%nat) "/lights/1"
                (Some (JObject [])) sample_world).
Proof.
  apply (Debug_only_logs (sample_env PerLoop [] []) sample_world 0
           sample_bridge "/lights/1" (Some (JObject []))).
  reflexivity.
Defined.

(** ** Setting the state of a light or a group *)

Section SetState.
Context (E : Env) (w : World) (la ba : nat) (l : Light.t) (b : Bridge).
Hypothesis (Hl : heap_Light w !! la = Some l).
Hypothesis (Hlb : Light.Bridge l = Some ba).
Hypothesis (Hb : heap_Bridge w !! ba = Some b).

Lemma Typed_SetState_run state :
  unsupported (Typed.encode state) = None →
  Typed.SetState E (Some la) state w =
    let r := state_request b l (Typed.encode state) in
    (Normal (exchange E r), after_put E b r w).
Proof using Hl Hlb Hb.
  intros Hfin. unfold Typed.SetState, json_Marshal. rewrite Hfin.
  run. rewrite Hl, Hlb. fold (@mbind M _). rewrite (put_run _ _ _ _ _ _ Hb).
  unfold exchange, after_put, state_request. simpl.
  destruct (url_error E _); [done|]. by destruct (client E _).
Qed.

Lemma Sentinel_SetState_run state :
  unsupported (encode_map (Sentinel.params E state)) = None →
  Sentinel.SetState E (Some la) state w =
    let r := state_request b l (encode_map (Sentinel.params E state)) in
    (Normal (exchange E r), after_put E b r w).
Proof using Hl Hlb Hb.
  intros Hfin. unfold Sentinel.SetState, json_Marshal. rewrite Hfin.
  run. rewrite Hl, Hlb. fold (@mbind M _). rewrite (put_run _ _ _ _ _ _ Hb).
  unfold exchange, after_put, state_request. simpl.
  destruct (url_error E _); [done|]. by destruct (client E _).
Qed.

End SetState.

Lemma SetGroupState_run E w (ba : nat) b groupID state :
  heap_Bridge w !! ba = Some b →
  unsupported (GroupState.encode state) = None →
  SetGroupState E (Some ba) groupID state w =
    let r := action_request b groupID (GroupState.encode state) in
    (Normal (exchange E r), after_put E b r w).
Proof.
  intros Hb Hfin. unfold SetGroupState, json_Marshal. rewrite Hfin.
  run. fold (@mbind M _). rewrite (put_run _ _ _ _ _ _ Hb).
  unfold exchange, after_put, action_request. simpl.
  destruct (url_error E _); [done|]. by destruct (client E _).
Qed.

(** ** What the encoders write *)

Lemma index_app {V : Type} (l1 l2 : list (string * V)) key :
  index (l1 ++ l2) key =
    match index l1 key with
    | Some v => Some v
    | None => index l2 key
    end.
Proof.
  induction l1 as [|[k v] l1 IH]; simpl; [done|].
  by destruct (String.eqb k key).
Qed.

Lemma index_omitempty key' empty v key :
  index (omitempty key' empty v) key =
    if empty then None else if String.eqb key' key then Some v else None.
Proof. unfold omitempty. by destruct empty. Qed.

(** The sparse encoding of the typed light state: a field is written exactly
    when its value is not the zero value of its type, and then with that
    value. *)
Lemma Typed_encode_members state :
  let doc := Typed.encode state in
  let s := state in
  member doc "on" =
    (if Typed.SetLightState.On s then Some (JBool true) else None) ∧
  member doc "bri" =
    (if Typed.SetLightState.Bri s =? 0 then None
     else Some (JInt (Typed.SetLightState.Bri s))) ∧
  member doc "hue" =
    (if Typed.SetLightState.Hue s =? 0 then None
     else Some (JInt (Typed.SetLightState.Hue s))) ∧
  member doc "sat" =
    (if Typed.SetLightState.Sat s =? 0 then None
     else Some (JInt (Typed.SetLightState.Sat s))) ∧
  member doc "xy" =
    (if empty_slice (Typed.SetLightState.Xy s) then None
     else Some (JArray (JFloat64 <$> elements (Typed.SetLightState.Xy s)))) ∧
  member doc "ct" =
    (if Typed.SetLightState.Ct s =? 0 then None
     else Some (JInt (Typed.SetLightState.Ct s))) ∧
  member doc "alert" =
    (if empty_string (Typed.SetLightState.Alert s) then None
     else Some (JString (Typed.SetLightState.Alert s))) ∧
  member doc "effect" =
    (if empty_string (Typed.SetLightState.Effect s) then None
     else Some (JString (Typed.SetLightState.Effect s))) ∧
  member doc "transitiontime" =
    (if Typed.SetLightState.TransitionTime s =? 0 then None
     else Some (JInt (Typed.SetLightState.TransitionTime s))) ∧
  member doc "scene" =
    (if empty_string (Typed.SetLightState.Scene s) then None
     else Some (JString (Typed.SetLightState.Scene s))).
Proof.
  destruct state as [on bri hue sat xy ct alert effect tt scene].
  unfold Typed.encode, member. simpl.
  rewrite !index_app, !index_omitempty. destruct on; simpl.
  all: repeat split;
    repeat match goal with
           | |- context [if ?c then _ else _] => destruct c; simpl; try done
           end.
Qed.

Lemma GroupState_encode_members state :
  let doc := GroupState.encode state in
  let s := state in
  member doc "on" = (if GroupState.On s then Some (JBool true) else None) ∧
  member doc "bri" =
    (if GroupState.Bri s =? 0 then None else Some (JInt (GroupState.Bri s))) ∧
  member doc "hue" =
    (if GroupState.Hue s =? 0 then None else Some (JInt (GroupState.Hue s))) ∧
  member doc "sat" =
    (if GroupState.Sat s =? 0 then None else Some (JInt (GroupState.Sat s))) ∧
  member doc "xy" =
    (if empty_slice (GroupState.Xy s) then None
     else Some (JArray (JFloat64 <$> elements (GroupState.Xy s)))) ∧
  member doc "ct" =
    (if GroupState.Ct s =? 0 then None else Some (JInt (GroupState.Ct s))) ∧
  member doc "alert" =
    (if empty_string (GroupState.Alert s) then None
     else Some (JString (GroupState.Alert s))) ∧
  member doc "effect" =
    (if empty_string (GroupState.Effect s) then None
     else Some (JString (GroupState.Effect s))) ∧
  member doc "transitiontime" =
    (if GroupState.TransitionTime s =? 0 then None
     else Some (JInt (GroupState.TransitionTime s))) ∧
  member doc "scene" =
    (if empty_string (GroupState.Scene s) then None
     else Some (JString (GroupState.Scene s))).
Proof.
  destruct state as [on bri hue sat xy ct alert effect tt scene].
  unfold GroupState.encode, member. simpl.
  rewrite !index_app, !index_omitempty. destruct on; simpl.
  all: repeat split;
    repeat match goal with
           | |- context [if ?c then _ else _] => destruct c; simpl; try done
           end.
Qed.

Lemma index_list_to_map {V : Type} (l : list (string * V)) key :
  index l key = (list_to_map l : gmap string V) !! key.
Proof.
  induction l as [|[k v] l IH]; simpl; [done|].
  destruct (String.eqb_spec k key) as [->|Hne].
  - by rewrite lookup_insert_eq.
  - by rewrite lookup_insert_ne.
Qed.

(** Sorting the keys of a map loses and changes no member. *)
Lemma member_encode_map (m : gmap string json) key :
  member (encode_map m) key = m !! key.
Proof.
  unfold encode_map, member. rewrite index_list_to_map.
  rewrite (list_to_map_proper _ (map_to_list m)).
  - by rewrite list_to_map_to_list.
  - rewrite merge_sort_Permutation. apply NoDup_fst_map_to_list.
  - apply merge_sort_Permutation.
Qed.

Lemma lookup_set_if present key v (m : gmap string json) k :
  Sentinel.set_if present key v m !! k =
    if String.eqb key k && present then Some v else m !! k.
Proof.
  unfold Sentinel.set_if.
  destruct (String.eqb_spec key k) as [->|Hne], present; try done.
  - by rewrite lookup_insert_eq.
  - by rewrite lookup_insert_ne.
Qed.

(** The body of the string-encoded light state: a field is written exactly
    when its string is not empty (for [Xy]: when the slice is not nil), with
    whatever [strconv] returned for it. *)
Lemma Sentinel_members E state :
  let doc := encode_map (Sentinel.params E state) in
  let s := state in
  member doc "on" =
    (if Sentinel.nonempty (Sentinel.SetLightState.On s)
     then Some (JBool (ParseBool (Sentinel.SetLightState.On s)).1)
     else None) ∧
  member doc "bri" =
    (if Sentinel.nonempty (Sentinel.SetLightState.Bri s)
     then Some (JInt (Atoi E (Sentinel.SetLightState.Bri s)).1) else None) ∧
  member doc "hue" =
    (if Sentinel.nonempty (Sentinel.SetLightState.Hue s)
     then Some (JInt (Atoi E (Sentinel.SetLightState.Hue s)).1) else None) ∧
  member doc "sat" =
    (if Sentinel.nonempty (Sentinel.SetLightState.Sat s)
     then Some (JInt (Atoi E (Sentinel.SetLightState.Sat s)).1) else None) ∧
  member doc "xy" =
    (JArray ∘ fmap JFloat32) <$> Sentinel.SetLightState.Xy s ∧
  member doc "ct" =
    (if Sentinel.nonempty (Sentinel.SetLightState.Ct s)
     then Some (JInt (Atoi E (Sentinel.SetLightState.Ct s)).1) else None) ∧
  member doc "alert" =
    (if Sentinel.nonempty (Sentinel.SetLightState.Alert s)
     then Some (JString (Sentinel.SetLightState.Alert s)) else None) ∧
  member doc "effect" =
    (if Sentinel.nonempty (Sentinel.SetLightState.Effect s)
     then Some (JString (Sentinel.SetLightState.Effect s)) else None) ∧
  member doc "transitiontime" =
    (if Sentinel.nonempty (Sentinel.SetLightState.TransitionTime s)
     then Some (JInt (Atoi E (Sentinel.SetLightState.TransitionTime s)).1)
     else None).
Proof.
  destruct state as [on bri hue sat xy ct alert effect tt].
  intros doc s. subst doc s. rewrite !member_encode_map.
  unfold Sentinel.params. cbn [Sentinel.SetLightState.On
    Sentinel.SetLightState.Bri Sentinel.SetLightState.Hue
    Sentinel.SetLightState.Sat Sentinel.SetLightState.Xy
    Sentinel.SetLightState.Ct Sentinel.SetLightState.Alert
    Sentinel.SetLightState.Effect Sentinel.SetLightState.TransitionTime].
  rewrite !lookup_set_if. cbn [String.eqb Ascii.eqb Bool.eqb andb].
  rewrite !lookup_empty. repeat split; try done.
  by destruct xy.
Qed.

(** ** The convenience methods *)

(** C4: [On] is [SetState] with a record whose only populated fields are
    on=true and effect=none, in both light files: the two calls are the same
    computation on every light and in every world, and on a light that
    exists they hand the http client one and the same request, a PUT to
    [/lights/<id>/state] whose body has exactly the members on=true and
    effect=none. *)
Theorem On_is_SetState_on_true_effect_none E :
  let typed := Typed.SetLightState.mk true 0 0 0 None 0 "" "none" 0 "" in
  let strings :=
    Sentinel.SetLightState.mk "true" "" "" "" None "" "" "none" "" in
  (∀ l w, Typed.On E l w = Typed.SetState E l typed w) ∧
  (∀ l w, Sentinel.On E l w = Sentinel.SetState E l strings w) ∧
  (∀ w (la ba : nat) l b,
     heap_Light w !! la = Some l →
     Light.Bridge l = Some ba →
     heap_Bridge w !! ba = Some b →
     let body := JObject [("on", JBool true); ("effect", JString "none")] in
     let sorted := JObject [("effect", JString "none"); ("on", JBool true)] in
     Typed.On E (Some la) w =
       (Normal (exchange E (state_request b l body)),
        after_put E b (state_request b l body) w) ∧
     Sentinel.On E (Some la) w =
       (Normal (exchange E (state_request b l sorted)),
        after_put E b (state_request b l sorted) w)).
Proof.
  intros typed strings. split; [done|]. split; [done|].
  intros w la ba l b Hl Hlb Hb body sorted. split.
  - unfold Typed.On. by rewrite (Typed_SetState_run E w la ba l b Hl Hlb Hb).
  - unfold Sentinel.On.
    by rewrite (Sentinel_SetState_run E w la ba l b Hl Hlb Hb).
Qed.

Lemma On_is_SetState_on_true_effect_none_witness :
  requests (trace (Typed.On (sample_env PerLoop [] []) (Some 0%nat)
                     sample_world).2) =
    [mkRequest "PUT" "http://10.0.0.2/api/newdeveloper/lights/1/state" None
       (Some (JObject [("on", JBool true); ("effect", JString "none")]))].
Proof.
  destruct (On_is_SetState_on_true_effect_none (sample_env PerLoop [] []))
    as (_ & _ & H).
  destruct (H sample_world 0%nat 0%nat (Light.mk "1" "Lamp" (Some 0%nat))
              sample_bridge) as [-> _]; reflexivity.
Defined.

(** What [Off] of the typed light file sends, on any light that exists: a
    body without members. *)
Lemma Typed_Off_run E w (la ba : nat) l b :
  heap_Light w !! la = Some l →
  Light.Bridge l = Some ba →
  heap_Bridge w !! ba = Some b →
  Typed.Off E (Some la) w =
    (Normal (exchange E (state_request b l (JObject []))),
     after_put E b (state_request b l (JObject [])) w).
Proof.
  intros Hl Hlb Hb. unfold Typed.Off.
  by rewrite (Typed_SetState_run E w la ba l b Hl Hlb Hb).
Qed.

(** C2, at the light of the sample world: [Off] of the typed light file
    sends the body [{}], in which no member [on] says false, where [Off] of
    the string-encoded light file sends [{"on":false}]. *)
Theorem Typed_Off_sends_no_on :
  let E := sample_env PerLoop [] [] in
  let uri := "http://10.0.0.2/api/newdeveloper/lights/1/state" in
  requests (trace (Typed.Off E (Some 0%nat) sample_world).2) =
    [mkRequest "PUT" uri None (Some (JObject []))] ∧
  member (JObject []) "on" = None ∧
  requests (trace (Sentinel.Off E (Some 0%nat) sample_world).2) =
    [mkRequest "PUT" uri None (Some (JObject [("on", JBool false)]))].
Proof. repeat split; reflexivity. Qed.

(** C1, at the light and the bridge of the sample world: a state update that
    sets on=true and bri=0 reaches the bridge as [{"on":true}] from the typed
    [SetState] and from [SetGroupState], without the brightness the caller
    set, where the string-encoded [SetState] sends [{"bri":0,"on":true}]. *)
Theorem typed_SetState_drops_bri_0 :
  let E := sample_env PerLoop [] [] in
  let light := Typed.SetLightState.mk true 0 0 0 None 0 "" "" 0 "" in
  let group := GroupState.mk true 0 0 0 None 0 "" "" 0 "" in
  let strings := Sentinel.SetLightState.mk "true" "0" "" "" None "" "" "" "" in
  requests (trace (Typed.SetState E (Some 0%nat) light sample_world).2) =
    [mkRequest "PUT" "http://10.0.0.2/api/newdeveloper/lights/1/state" None
       (Some (JObject [("on", JBool true)]))] ∧
  requests (trace (SetGroupState E (Some 0%nat) "1" group sample_world).2) =
    [mkRequest "PUT" "http://10.0.0.2/api/newdeveloper/groups/1/action" None
       (Some (JObject [("on", JBool true)]))] ∧
  member (JObject [("on", JBool true)]) "bri" = None ∧
  requests (trace (Sentinel.SetState E (Some 0%nat) strings sample_world).2) =
    [mkRequest "PUT" "http://10.0.0.2/api/newdeveloper/lights/1/state" None
       (Some (JObject [("bri", JInt 0); ("on", JBool true)]))].
Proof. repeat split; reflexivity. Qed.

(** ** Listing lights and groups *)

Lemma fresh_S first n : fresh first (S n) = Some first :: fresh (S first) n.
Proof. done. Qed.

Lemma length_fresh first n : length (fresh first n) = n.
Proof. unfold fresh. by rewrite length_fmap, length_seq. Qed.

Lemma lookup_fresh first n (i : nat) :
  (i < n)%nat → fresh first n !! i = Some (Some (first + i)%nat).
Proof.
  intros Hi. unfold fresh. rewrite list_lookup_fmap.
  by rewrite lookup_seq_lt.
Qed.

Lemma bind_Normal {A B : Type} (c : M A) (f : A → M B) w a w' :
  c w = (Normal a, w') → (c ≫= f) w = f a w'.
Proof. intros H. unfold mbind, M_bind. by rewrite H. Qed.

Lemma bind_Panic {A B : Type} (c : M A) (f : A → M B) w msg w' :
  c w = (Panic msg, w') → (c ≫= f) w = (Panic msg, w').
Proof. intros H. unfold mbind, M_bind. by rewrite H. Qed.

(** The loop of [GetAllLights]: one new cell per entry, in the order of the
    visit, and the pointers to them appended in that order. *)
Lemma GetAllLights_loop b results acc w :
  range results
    (fun lights id params =>
       light ← new_Light (Light.mk id (Light.Name params) b);
       mret (lights ++ [light]))
    acc w =
  (Normal (acc ++ fresh (length (heap_Light w)) (length results)),
   mkWorld (heap_Bridge w) (heap_Light w ++ (listed_light b <$> results))
     (heap_Group w) (trace w)).
Proof.
  revert acc w. induction results as [|[id params] results IH]; intros acc w.
  - simpl. run. rewrite !app_nil_r. by destruct w.
  - cbn [range]. erewrite bind_Normal; [|reflexivity]. rewrite IH. simpl.
    rewrite length_app, Nat.add_1_r, <- !app_assoc. done.
Qed.

Lemma GetAllLights_run E w (a : nat) b response results :
  heap_Bridge w !! a = Some b →
  client E (mkRequest "GET" (toURI b "/lights") None None) = Ok response →
  Decode (Decode_lights E) response = Ok results →
  GetAllLights E (Some a) w =
    (Normal (Ok (fresh (length (heap_Light w)) (length results))),
     mkWorld (heap_Bridge w)
       (heap_Light w ++ (listed_light (Some a) <$> results))
       (heap_Group w)
       (trace (get E (Some a) "/lights" w).2)).
Proof.
  intros Hb Hc Hd. unfold GetAllLights.
  erewrite bind_Normal; [|by apply get_run]. cbv zeta. rewrite Hc, Hd.
  erewrite bind_Normal; [|by apply GetAllLights_loop].
  by rewrite (get_run _ _ _ _ _ Hb).
Qed.

(** Every light that [GetAllLights] returns is a different object that
    carries the key of its entry as identifier, the name of the entry, and
    the bridge on which the call was made; there are as many as entries. *)
Lemma GetAllLights_lights E w (a : nat) b response results :
  heap_Bridge w !! a = Some b →
  client E (mkRequest "GET" (toURI b "/lights") None None) = Ok response →
  Decode (Decode_lights E) response = Ok results →
  ∃ ls w',
    GetAllLights E (Some a) w = (Normal (Ok ls), w') ∧
    length ls = length results ∧
    NoDup ls ∧
    ∀ (i : nat) id params,
      results !! i = Some (id, params) →
      ∃ p, ls !! i = Some p ∧
           pointee w' p = Some (Light.mk id (Light.Name params) (Some a)).
Proof.
  intros Hb Hc Hd. eexists _, _. split; [by eapply GetAllLights_run|].
  split; [apply length_fresh|]. split.
  { unfold fresh. apply (NoDup_fmap_2 _), NoDup_seq. }
  intros i id params Hi. eexists. split.
  { apply lookup_fresh. by eapply lookup_lt_Some. }
  simpl. rewrite lookup_app_r by lia.
  replace (length (heap_Light w) + i - length (heap_Light w))%nat with i
    by lia.
  by rewrite list_lookup_fmap, Hi.
Qed.

Lemma store_Group_run w (n : nat) g g0 :
  heap_Group w !! n = Some g0 →
  store_Group (Some n) g w =
    (Normal tt, with_Groups w (<[n := g]> (heap_Group w))).
Proof. intros H. unfold store_Group. by rewrite H. Qed.

Lemma load_Group_run w (n : nat) g :
  heap_Group w !! n = Some g → load heap_Group (Some n) w = (Normal g, w).
Proof. intros H. unfold load. by rewrite H. Qed.

(** One turn of the loop of [GetAllGroups] on the variable at [n]: the
    variable ends up holding the listed group, and its address is
    appended. *)
Lemma GetAllGroups_turn b (n : nat) acc id value w g0 :
  heap_Group w !! n = Some g0 →
  (store_Group (Some n) value ≫= λ _, GetAllGroups_body b (Some n) acc id) w =
    (Normal (acc ++ [Some n]),
     with_Groups w (<[n := listed_group b (id, value)]> (heap_Group w))).
Proof.
  intros H. assert (Hn : (n < length (heap_Group w))%nat)
    by by eapply lookup_lt_Some.
  erewrite bind_Normal; [|by eapply store_Group_run].
  unfold GetAllGroups_body.
  erewrite bind_Normal; [|apply load_Group_run; simpl; insert_eq].
  erewrite bind_Normal; [|eapply store_Group_run; simpl; insert_eq].
  erewrite bind_Normal; [|apply load_Group_run; simpl; insert_eq].
  erewrite bind_Normal; [|eapply store_Group_run; simpl; insert_eq].
  unfold with_Groups. simpl. by rewrite !list_insert_insert_eq.
Qed.

(** The loop of [GetAllGroups] when the loop has one variable: every turn
    overwrites it, every appended pointer is its address, and what it holds
    in the end is the entry visited last. *)
Lemma GetAllGroups_loop_PerLoop b (n : nat) results acc w g0 :
  heap_Group w !! n = Some g0 →
  range results
    (fun groups id value =>
       _ ← store_Group (Some n) value;
       GetAllGroups_body b (Some n) groups id)
    acc w =
  (Normal (acc ++ replicate (length results) (Some n)),
   with_Groups w
     (<[n := default g0 (listed_group b <$> last results)]> (heap_Group w))).
Proof.
  revert acc w g0.
  induction results as [|[id value] results IH]; intros acc w g0 H.
  - simpl. rewrite app_nil_r, list_insert_id by done. by destruct w.
  - cbn [range]. erewrite bind_Normal; [|by eapply GetAllGroups_turn].
    assert (Hn : (n < length (heap_Group w))%nat) by by eapply lookup_lt_Some.
    erewrite IH; [|by apply list_lookup_insert_eq].
    unfold with_Groups. simpl. rewrite list_insert_insert_eq, <- app_assoc.
    do 3 f_equal. rewrite last_cons. by destruct (last results).
Qed.

(** The loop when every turn has a variable of its own. *)
Lemma GetAllGroups_loop_PerIteration b results acc w :
  range results
    (fun groups id value =>
       group ← new_Group value;
       GetAllGroups_body b group groups id)
    acc w =
  (Normal (acc ++ fresh (length (heap_Group w)) (length results)),
   with_Groups w (heap_Group w ++ (listed_group b <$> results))).
Proof.
  revert acc w. induction results as [|[id value] results IH]; intros acc w.
  - simpl. rewrite !app_nil_r. by destruct w.
  - cbn [range].
    assert (Hturn :
      (new_Group value ≫= λ group, GetAllGroups_body b group acc id) w =
      (Normal (acc ++ [Some (length (heap_Group w))]),
       with_Groups w (heap_Group w ++ [listed_group b (id, value)]))).
    { erewrite bind_Normal; [|reflexivity].
      set (w1 := with_Groups w (heap_Group w ++ [value])).
      change (mkWorld _ _ _ _) with w1.
      assert (H1 : heap_Group w1 !! length (heap_Group w) = Some value).
      { simpl. by rewrite lookup_app_r, Nat.sub_diag. }
      pose proof (GetAllGroups_turn b _ acc id value w1 value H1) as Ht.
      erewrite bind_Normal in Ht; [|by eapply store_Group_run].
      simpl in Ht. rewrite list_insert_id in Ht by done.
      replace (with_Groups w1 (heap_Group w ++ [value])) with w1 in Ht
        by done.
      rewrite Ht. unfold with_Groups. simpl. f_equal. f_equal.
      rewrite insert_app_r_alt, Nat.sub_diag by lia. done. }
    erewrite bind_Normal; [|exact Hturn]. rewrite IH.
    unfold with_Groups. simpl.
    rewrite length_app, Nat.add_1_r, <- !app_assoc. done.
Qed.

Section GetAllGroups.
Context (E : Env) (w : World) (a : nat) (b : Bridge) (response : Response).
Context (results : list (string * Group.t)).
Hypothesis (Hb : heap_Bridge w !! a = Some b).
Hypothesis
  (Hc : client E (mkRequest "GET" (toURI b "/groups") None None) = Ok response).
Hypothesis (Hd : Decode (Decode_groups E) response = Ok results).

Lemma GetAllGroups_run_PerLoop :
  range_var E = PerLoop →
  GetAllGroups E (Some a) w =
    (Normal (Ok (replicate (length results) (Some (length (heap_Group w))))),
     mkWorld (heap_Bridge w) (heap_Light w)
       (heap_Group w ++
        [default zero_Group (listed_group (Some a) <$> last results)])
       (trace (get E (Some a) "/groups" w).2)).
Proof using Hb Hc Hd.
  intros Hrv. unfold GetAllGroups.
  erewrite bind_Normal; [|by apply get_run]. cbv zeta. rewrite Hc, Hd, Hrv.
  erewrite bind_Normal.
  2:{ erewrite bind_Normal; [|reflexivity].
      eapply (GetAllGroups_loop_PerLoop _ _ _ _ _ zero_Group).
      simpl. by rewrite lookup_app_r, Nat.sub_diag. }
  rewrite (get_run _ _ _ _ _ Hb). unfold with_Groups. simpl.
  by rewrite insert_app_r_alt, Nat.sub_diag by lia.
Qed.

Lemma GetAllGroups_run_PerIteration :
  range_var E = PerIteration →
  GetAllGroups E (Some a) w =
    (Normal (Ok (fresh (length (heap_Group w)) (length results))),
     mkWorld (heap_Bridge w) (heap_Light w)
       (heap_Group w ++ (listed_group (Some a) <$> results))
       (trace (get E (Some a) "/groups" w).2)).
Proof using Hb Hc Hd.
  intros Hrv. unfold GetAllGroups.
  erewrite bind_Normal; [|by apply get_run]. cbv zeta. rewrite Hc, Hd, Hrv.
  erewrite bind_Normal; [|by apply GetAllGroups_loop_PerIteration].
  by rewrite (get_run _ _ _ _ _ Hb).
Qed.

(** Under either rule [GetAllGroups] returns as many pointers as the
    mapping has entries. *)
Lemma GetAllGroups_count :
  ∃ gs w', GetAllGroups E (Some a) w = (Normal (Ok gs), w') ∧
           length gs = length results.
Proof using Hb Hc Hd.
  destruct (range_var E) eqn:Hrv; eexists _, _.
  - split; [by apply GetAllGroups_run_PerLoop|]. by rewrite length_replicate.
  - split; [by apply GetAllGroups_run_PerIteration|]. apply length_fresh.
Qed.

(** With a variable per turn, every group returned is an object of its own
    and carries the key of its entry and the bridge of the call. *)
Lemma GetAllGroups_groups_PerIteration :
  range_var E = PerIteration →
  ∃ gs w',
    GetAllGroups E (Some a) w = (Normal (Ok gs), w') ∧
    ∀ (i : nat) id value,
      results !! i = Some (id, value) →
      ∃ p, gs !! i = Some p ∧
           group_pointee w' p = Some (listed_group (Some a) (id, value)).
Proof using Hb Hc Hd.
  intros Hrv. eexists _, _.
  split; [by apply GetAllGroups_run_PerIteration|].
  intros i id value Hi. eexists. split.
  { apply lookup_fresh. by eapply lookup_lt_Some. }
  simpl. rewrite lookup_app_r by lia.
  replace (length (heap_Group w) + i - length (heap_Group w))%nat with i
    by lia.
  by rewrite list_lookup_fmap, Hi.
Qed.

(** With one variable for the loop, every group returned is the same
    object, and it carries the key of the entry visited last. *)
Lemma GetAllGroups_groups_PerLoop :
  range_var E = PerLoop →
  ∃ gs w',
    GetAllGroups E (Some a) w = (Normal (Ok gs), w') ∧
    ∀ p, p ∈ gs →
      group_pointee w' p = listed_group (Some a) <$> last results.
Proof using Hb Hc Hd.
  intros Hrv. eexists _, _.
  split; [by apply GetAllGroups_run_PerLoop|].
  intros p [-> Hn]%elem_of_replicate. simpl.
  rewrite lookup_app_r, Nat.sub_diag by lia. simpl.
  destruct (last results) eqn:Hlast; [done|].
  apply last_None in Hlast. by subst.
Qed.

End GetAllGroups.

(** C3, on a bridge that lists the group with identifier 0: [GetAllGroups]
    returns it, under either rule for loop variables.  Nothing between the
    decoding and the return looks at the key. *)
Theorem GetAllGroups_returns_group_0 rv :
  GetAllGroups (sample_env rv [] [("0", group_0)]) (Some 0%nat) sample_world =
    (Normal (Ok [Some 0%nat]),
     mkWorld [sample_bridge] [Light.mk "1" "Lamp" (Some 0%nat)]
       [Group.mk "0" "Lightset 0" "LightGroup" "" ["1"; "2"; "3"]
          (Some 0%nat)]
       [Sent (mkRequest "GET" "http://10.0.0.2/api/newdeveloper/groups"
                None None)]).
Proof. destruct rv; reflexivity. Qed.

(** C5, on a bridge that lists two groups, with one variable for the loop:
    [GetAllGroups] returns two pointers, both to the variable, which holds
    the group visited last; the group with identifier 1 is not among the
    objects returned.  [GetAllLights] on two lights returns two objects,
    each with its own key. *)
Theorem GetAllGroups_returns_one_object :
  let E := sample_env PerLoop
             [("1", Light.mk "" "Lamp" None); ("2", Light.mk "" "Desk" None)]
             [("1", living_room); ("2", kitchen)] in
  GetAllGroups E (Some 0%nat) sample_world =
    (Normal (Ok [Some 0%nat; Some 0%nat]),
     mkWorld [sample_bridge] [Light.mk "1" "Lamp" (Some 0%nat)]
       [Group.mk "2" "Kitchen" "Room" "Kitchen" ["3"] (Some 0%nat)]
       [Sent (mkRequest "GET" "http://10.0.0.2/api/newdeveloper/groups"
                None None)]) ∧
  GetAllLights E (Some 0%nat) sample_world =
    (Normal (Ok [Some 1%nat; Some 2%nat]),
     mkWorld [sample_bridge]
       [Light.mk "1" "Lamp" (Some 0%nat); Light.mk "1" "Lamp" (Some 0%nat);
        Light.mk "2" "Desk" (Some 0%nat)]
       []
       [Sent (mkRequest "GET" "http://10.0.0.2/api/newdeveloper/lights"
                None None)]).
Proof. split; reflexivity. Qed.

(** ** New lights *)

Lemma GetNewLights_run E w (a : nat) b response data results :
  heap_Bridge w !! a = Some b →
  client E (mkRequest "GET" (toURI b "/lights/new") None None) = Ok response →
  RespBody response = Ok data →
  Unmarshal_map E data = Ok results →
  GetNewLights E (Some a) w =
    GetNewLights_decoded results (get E (Some a) "/lights/new" w).2.
Proof.
  intros Hb Hc Hr Hu. unfold GetNewLights.
  erewrite bind_Normal; [|by apply get_run]. cbv zeta.
  rewrite Hc, Hr, Hu. by rewrite (get_run _ _ _ _ _ Hb).
Qed.

(** Without a string under [lastscan] the first type assertion panics,
    before any light is made. *)
Lemma GetNewLights_decoded_panics results w :
  (∀ s, index results "lastscan" ≠ Some (JString s)) →
  GetNewLights_decoded results w =
    (Panic ("interface conversion: interface {} is " +:+
            type_name (index results "lastscan") +:+ ", not string"), w).
Proof.
  intros Hno. unfold GetNewLights_decoded.
  apply bind_Panic. unfold assert_string, conversion_panic, panic.
  destruct (index results "lastscan") as [[]|]; try done.
  by edestruct Hno.
Qed.

(** Past the decoding [GetNewLights] has no error left to return. *)
Lemma GetNewLights_decoded_no_error results w err w' :
  GetNewLights_decoded results w ≠ (Normal (Err err), w').
Proof.
  unfold GetNewLights_decoded, mbind, M_bind.
  destruct (assert_string _ w) as [[lastScan|msg] w1]; [|done].
  by destruct (range results _ [] w1) as [[ls|msg] w2].
Qed.



(** C9: when the payload decodes but the mapping has no string under
    [lastscan], [GetNewLights] does not return: the type assertion on that
    entry panics.  Whenever it does return an error, the error is the one of
    the transport, of reading the body, or of the decoder. *)
Theorem GetNewLights_lastscan_required E w (a : nat) b :
  heap_Bridge w !! a = Some b →
  let answer :=
    client E (mkRequest "GET" (toURI b "/lights/new") None None) in
  (∀ response data results,
     answer = Ok response →
     RespBody response = Ok data →
     Unmarshal_map E data = Ok results →
     (∀ s, index results "lastscan" ≠ Some (JString s)) →
     (GetNewLights E (Some a) w).1 =
       Panic ("interface conversion: interface {} is " +:+
              type_name (index results "lastscan") +:+ ", not string")) ∧
  (∀ err w',
     GetNewLights E (Some a) w = (Normal (Err err), w') →
     answer = Err err ∨
     ∃ response,
       answer = Ok response ∧
       (RespBody response = Err err ∨
        ∃ data, RespBody response = Ok data ∧
                Unmarshal_map E data = Err err)).
Proof.
  intros Hb answer. split.
  - intros response data results Hc Hr Hu Hno.
    rewrite (GetNewLights_run _ _ _ _ _ _ _ Hb Hc Hr Hu).
    by rewrite GetNewLights_decoded_panics.
  - intros err w'. unfold GetNewLights.
    erewrite bind_Normal; [|by apply get_run]. cbv zeta. fold answer.
    destruct answer as [response|e]; [|unfold mret, M_ret; naive_solver].
    destruct (RespBody response) as [data|e] eqn:Hr;
      [|unfold mret, M_ret; naive_solver].
    destruct (Unmarshal_map E data) as [results|e] eqn:Hu;
      [|unfold mret, M_ret; naive_solver].
    intros H. by apply GetNewLights_decoded_no_error in H.
Qed.

Lemma GetNewLights_lastscan_required_witness :
  (GetNewLights scanless_env (Some 0%nat) sample_world).1 =
    Panic "interface conversion: interface {} is nil, not string".
Proof.
  apply (proj1 (GetNewLights_lastscan_required scanless_env sample_world 0
                  sample_bridge eq_refl)
           (mkResponse (Ok "{}")) "{}" []); try reflexivity.
  intros s. simpl. discriminate.
Defined.

(** ** Looking a light up *)

(** The scan of the two lookups comes up empty when no light matches. *)
Lemma first_light_none matches ls w :
  Forall (λ p, ∃ l, pointee w p = Some l ∧ matches l = false) ls →
  first_light matches ls w = (Normal None, w).
Proof.
  induction 1 as [|p ls (l & Hp & Hm) _ IH]; [done|].
  cbn [first_light]. destruct p as [a|]; [|done]. simpl in Hp.
  erewrite bind_Normal; [|by unfold load; rewrite Hp]. by rewrite Hm.
Qed.

Lemma append_empty_r (s : string) : s +:+ "" = s.
Proof.
  induction s as [|c s IH]; [done|].
  change (String c (s +:+ "") = String c s). by rewrite IH.
Qed.

Lemma contains_suffix pre key : contains (pre +:+ key) key.
Proof. exists pre, "". by rewrite append_empty_r. Qed.

(** C7: when no light of the collection that [GetAllLights] returns (the
    empty collection included) has the name, or the identifier, that is
    looked up, [FindLightByName] and [FindLightByID] return no light and an
    error whose message ends in the key as it was given. *)
Theorem Find_not_found E b key w ls w' :
  GetAllLights E b w = (Normal (Ok ls), w') →
  (Forall (λ p, ∃ l, pointee w' p = Some l ∧ Light.Name l ≠ key) ls →
   FindLightByName E b key w =
     (Normal (Err (ErrorString ("unable to find light with name, " +:+ key))),
      w') ∧
   contains (Error (ErrorString ("unable to find light with name, " +:+ key)))
     key) ∧
  (Forall (λ p, ∃ l, pointee w' p = Some l ∧ Light.ID l ≠ key) ls →
   FindLightByID E b key w =
     (Normal (Err (ErrorString ("unable to find light with id, " +:+ key))),
      w') ∧
   contains (Error (ErrorString ("unable to find light with id, " +:+ key)))
     key).
Proof.
  intros Hall. split; intros Hno.
  - split; [|apply contains_suffix]. unfold FindLightByName.
    erewrite bind_Normal; [|exact Hall]. cbv beta iota.
    rewrite (bind_Normal _ _ _ None w'); [done|]. apply first_light_none.
    eapply Forall_impl; [exact Hno|]. intros p (l & Hp & Hne).
    exists l. split; [done|]. by apply String.eqb_neq.
  - split; [|apply contains_suffix]. unfold FindLightByID.
    erewrite bind_Normal; [|exact Hall]. cbv beta iota.
    rewrite (bind_Normal _ _ _ None w'); [done|]. apply first_light_none.
    eapply Forall_impl; [exact Hno|]. intros p (l & Hp & Hne).
    exists l. split; [done|]. by apply String.eqb_neq.
Qed.

Lemma Find_not_found_witness :
  let E := sample_env PerLoop [("1", Light.mk "" "Lamp" None)] [] in
  ∃ w',
    FindLightByName E (Some 0%nat) "Missing" sample_world =
      (Normal (Err (ErrorString "unable to find light with name, Missing")),
       w') ∧
    contains "unable to find light with name, Missing" "Missing".
Proof.
  intros E. eexists.
  refine (proj1 (Find_not_found E (Some 0%nat) "Missing" sample_world
                   [Some 1%nat] _ _) _).
  - reflexivity.
  - repeat constructor. eexists. split; [reflexivity|]. simpl. discriminate.
Defined.

(** ** Strings that do not parse *)

Lemma ParseInt_failure s bitSize v e :
  ParseInt s bitSize = (v, Some e) →
  (e = ErrSyntax ∧ v = 0) ∨
  (e = ErrRange ∧
   v = if negative s then - 2 ^ (bitSize - 1) else 2 ^ (bitSize - 1) - 1).
Proof.
  unfold ParseInt, negative. destruct s as [|c rest]; [naive_solver|].
  cbv zeta. destruct (byte_of c =? 45);
    destruct (ParseUint _ bitSize) as [un [[]|]];
    repeat case_match; naive_solver.
Qed.

Lemma Atoi_failure E s err :
  (Atoi E s).2 = Some err →
  (err = NumError "Atoi" s ErrSyntax ∧ (Atoi E s).1 = 0) ∨
  (err = NumError "Atoi" s ErrRange ∧
   (Atoi E s).1 = if negative s then MinInt E else MaxInt E).
Proof.
  unfold Atoi, MinInt, MaxInt.
  destruct (ParseInt s (IntSize E)) as [v [e|]] eqn:H; [|done].
  simpl. intros [= <-].
  destruct (ParseInt_failure _ _ _ _ H) as [[-> ->]|[-> Hv]];
    [by left|by right].
Qed.

Lemma ParseBool_failure str :
  (ParseBool str).2 ≠ None → (ParseBool str).1 = false.
Proof. unfold ParseBool. repeat destruct (bool_decide _); simpl; congruence. Qed.

Lemma discarded_failure_sent E s :
  discarded_failure E s (Some (JInt (Atoi E s).1)).
Proof.
  intros err H.
  destruct (Atoi_failure _ _ _ H) as [[-> Hv]|[-> Hv]]; rewrite Hv; auto.
Qed.

(** The encoder accepts an object all of whose values it accepts. *)
Lemma unsupported_JObject members :
  Forall (λ kv, unsupported kv.2 = None) members →
  unsupported (JObject members) = None.
Proof.
  simpl. induction 1 as [|[k v] l Hv _ IH]; [done|].
  simpl in Hv. by rewrite Hv.
Qed.

Lemma unsupported_set_if present key v (m : gmap string json) :
  unsupported v = None →
  map_Forall (λ _ x, unsupported x = None) m →
  map_Forall (λ _ x, unsupported x = None) (Sentinel.set_if present key v m).
Proof.
  intros Hv Hm. unfold Sentinel.set_if. destruct present; [|done].
  by apply map_Forall_insert_2.
Qed.

(** Only the floats of [Xy] can make the encoder refuse the body. *)
Lemma Sentinel_unsupported E state :
  unsupported
    (JArray (JFloat32 <$> elements (Sentinel.SetLightState.Xy state))) = None →
  unsupported (encode_map (Sentinel.params E state)) = None.
Proof.
  intros Hxy. unfold encode_map. apply unsupported_JObject.
  rewrite merge_sort_Permutation.
  apply Forall_forall. intros [k v] Hin.
  apply elem_of_map_to_list in Hin. revert k v Hin.
  change (map_Forall (λ _ x, unsupported x = None) (Sentinel.params E state)).
  unfold Sentinel.params.
  repeat (apply unsupported_set_if; [done|]).
  apply map_Forall_empty.
Qed.

(** C10 as stated fails: with [Bri] set to the decimal 9223372036854775808,
    which [strconv.Atoi] refuses as out of range on a 64-bit platform, the
    body carries bri=9223372036854775807, not the zero value. *)
Lemma out_of_range_Bri_is_not_zero :
  let E := sample_env PerLoop [] [] in
  let state :=
    Sentinel.SetLightState.mk "" "9223372036854775808" "" "" None "" "" "" "" in
  (Sentinel.nonempty (Sentinel.SetLightState.Bri state) = true ∧
   Atoi E (Sentinel.SetLightState.Bri state) =
     (9223372036854775807,
      Some (NumError "Atoi" "9223372036854775808" ErrRange)) ∧
   requests (trace (Sentinel.SetState E (Some 0%nat) state sample_world).2) =
     [mkRequest "PUT" "http://10.0.0.2/api/newdeveloper/lights/1/state" None
        (Some (JObject [("bri", JInt 9223372036854775807)]))]) ∧
  ¬ (∀ E state,
       Sentinel.nonempty (Sentinel.SetLightState.Bri state) = true →
       (Atoi E (Sentinel.SetLightState.Bri state)).2 ≠ None →
       member (encode_map (Sentinel.params E state)) "bri" = Some (JInt 0)).
Proof.
  split; [repeat split; reflexivity|].
  intros H.
  specialize (H (sample_env PerLoop [] [])
    (Sentinel.SetLightState.mk "" "9223372036854775808" "" "" None
       "" "" "" "") eq_refl).
  assert (Hsent :
    member
      (encode_map
         (Sentinel.params (sample_env PerLoop [] [])
            (Sentinel.SetLightState.mk "" "9223372036854775808" "" "" None
               "" "" "" ""))) "bri" =
    Some (JInt 9223372036854775807)) by (vm_compute; reflexivity).
  rewrite Hsent in H.
  assert (Hzero : Some (JInt 9223372036854775807) = Some (JInt 0));
    [|discriminate Hzero].
  apply H. vm_compute. discriminate.
Qed.

(** C10, amended: in the string-encoded [SetState] a field whose string is
    not empty and does not parse never causes an error.  The error of
    [strconv] is dropped, the request is sent, and the field carries the
    value that [strconv] returned with the error: false for [On]; for a
    numeric field 0 when the error is a syntax error, and when it is a range
    error the largest [int] if the string has no leading minus sign and the
    smallest [int] if it has one. *)
Theorem parse_failure_is_discarded E w (la ba : nat) l b state :
  heap_Light w !! la = Some l →
  Light.Bridge l = Some ba →
  heap_Bridge w !! ba = Some b →
  unsupported
    (JArray (JFloat32 <$> elements (Sentinel.SetLightState.Xy state))) = None →
  let doc := encode_map (Sentinel.params E state) in
  let filled := λ s, Sentinel.nonempty s = true in
  Sentinel.SetState E (Some la) state w =
    (Normal (exchange E (state_request b l doc)),
     after_put E b (state_request b l doc) w) ∧
  (filled (Sentinel.SetLightState.On state) →
   (ParseBool (Sentinel.SetLightState.On state)).2 ≠ None →
   member doc "on" = Some (JBool false)) ∧
  (filled (Sentinel.SetLightState.Bri state) →
   discarded_failure E (Sentinel.SetLightState.Bri state)
     (member doc "bri")) ∧
  (filled (Sentinel.SetLightState.Hue state) →
   discarded_failure E (Sentinel.SetLightState.Hue state)
     (member doc "hue")) ∧
  (filled (Sentinel.SetLightState.Sat state) →
   discarded_failure E (Sentinel.SetLightState.Sat state)
     (member doc "sat")) ∧
  (filled (Sentinel.SetLightState.Ct state) →
   discarded_failure E (Sentinel.SetLightState.Ct state)
     (member doc "ct")) ∧
  (filled (Sentinel.SetLightState.TransitionTime state) →
   discarded_failure E (Sentinel.SetLightState.TransitionTime state)
     (member doc "transitiontime")).
Proof.
  intros Hl Hlb Hb Hxy doc filled.
  destruct (Sentinel_members E state)
    as (Hon & Hbri & Hhue & Hsat & _ & Hct & _ & _ & Htt).
  fold doc in Hon, Hbri, Hhue, Hsat, Hct, Htt. unfold filled.
  split.
  { apply (Sentinel_SetState_run E w la ba l b Hl Hlb Hb).
    by apply Sentinel_unsupported. }
  split.
  { intros Hf Hfail. rewrite Hon, Hf. by rewrite ParseBool_failure. }
  repeat split; intros Hf.
  - rewrite Hbri, Hf. apply discarded_failure_sent.
  - rewrite Hhue, Hf. apply discarded_failure_sent.
  - rewrite Hsat, Hf. apply discarded_failure_sent.
  - rewrite Hct, Hf. apply discarded_failure_sent.
  - rewrite Htt, Hf. apply discarded_failure_sent.
Qed.

Lemma parse_failure_is_discarded_witness :
  let E := sample_env PerLoop [] [] in
  let state :=
    Sentinel.SetLightState.mk "maybe" "abc" "99999999999999999999x"
      "-9223372036854775809" None "9223372036854775808" "" "" "" in
  let doc := encode_map (Sentinel.params E state) in
  member doc "on" = Some (JBool false) ∧
  member doc "bri" = Some (JInt 0) ∧
  member doc "hue" = Some (JInt 9223372036854775807) ∧
  member doc "sat" = Some (JInt (-9223372036854775808)) ∧
  member doc "ct" = Some (JInt 9223372036854775807).
Proof.
  intros E state doc.
  destruct (parse_failure_is_discarded E sample_world 0 0
              (Light.mk "1" "Lamp" (Some 0%nat)) sample_bridge state)
    as (_ & Hon & Hbri & Hhue & Hsat & Hct & _); try reflexivity.
  split; [apply Hon; [reflexivity|vm_compute; discriminate]|].
  split.
  { destruct (Hbri eq_refl (NumError "Atoi" "abc" ErrSyntax))
      as [[_ H]|[H _]]; [vm_compute; reflexivity|exact H|discriminate H]. }
  split.
  { destruct (Hhue eq_refl (NumError "Atoi" "99999999999999999999x" ErrRange))
      as [[H _]|[_ H]]; [vm_compute; reflexivity|discriminate H|exact H]. }
  split.
  { destruct (Hsat eq_refl (NumError "Atoi" "-9223372036854775809" ErrRange))
      as [[H _]|[_ H]]; [vm_compute; reflexivity|discriminate H|exact H]. }
  destruct (Hct eq_refl (NumError "Atoi" "9223372036854775808" ErrRange))
    as [[H _]|[_ H]]; [vm_compute; reflexivity|discriminate H|exact H].
Defined.
